(** * ShellTask: a shallow embedding of [prefect.tasks.shell]

    The development follows [src/prefect/tasks/shell.py].  The Python
    builtins the task relies on ([str.format] on an [int] and on a [bytes]
    value, [dict.copy], [dict.update], [subprocess.check_output]) are
    embedded by their documented behaviour; the operating system is a
    parameter of the development. *)

From Stdlib Require Import ZArith NArith List.
From Stdlib.Strings Require Import Ascii String Byte.
From stdpp Require Import gmap strings list fin_maps pretty.

Local Open Scope Z_scope.

(** ** Python builtins used by the task *)

Module Builtins.

(** A Python [bytes] object. *)
Definition bytes := list byte.

Definition squote : ascii := ascii_of_N 39.
Definition dquote : ascii := ascii_of_N 34.
Definition backslash : ascii := ascii_of_N 92.

(** [Py_hexdigits]: lower-case hexadecimal digits. *)
Definition hexdigit (n : N) : ascii :=
  match n with
  | 0 => "0" | 1 => "1" | 2 => "2" | 3 => "3" | 4 => "4" | 5 => "5"
  | 6 => "6" | 7 => "7" | 8 => "8" | 9 => "9" | 10 => "a" | 11 => "b"
  | 12 => "c" | 13 => "d" | 14 => "e" | _ => "f"
  end%N%char.

(** The quote [repr] picks for a [bytes] value: a single quote, unless the
    value holds a single quote and no double quote. *)
Definition repr_quote (bs : bytes) : ascii :=
  let squotes := existsb (fun b => Ascii.eqb (ascii_of_byte b) squote) bs in
  let dquotes := existsb (fun b => Ascii.eqb (ascii_of_byte b) dquote) bs in
  if squotes && negb dquotes then dquote else squote.

(** One byte of the body of [repr(bytes)]. *)
Definition repr_byte (quote : ascii) (b : byte) : string :=
  let c := ascii_of_byte b in
  let n := Byte.to_N b in
  if Ascii.eqb c quote || Ascii.eqb c backslash then
    String backslash (String c EmptyString)
  else if (n =? 9)%N then String backslash (String "t" EmptyString)
  else if (n =? 10)%N then String backslash (String "n" EmptyString)
  else if (n =? 13)%N then String backslash (String "r" EmptyString)
  else if (n <? 32)%N || (127 <=? n)%N then
    String backslash (String "x"
      (String (hexdigit (N.shiftr (N.land n 240) 4))
        (String (hexdigit (N.land n 15)) EmptyString)))
  else String c EmptyString.

Fixpoint repr_body (quote : ascii) (bs : bytes) : string :=
  match bs with
  | [] => EmptyString
  | b :: bs' => repr_byte quote b +:+ repr_body quote bs'
  end.

(** [repr(bs)] for a [bytes] value, which is what [str.format] inserts for
    a [bytes] argument of an empty format specification. *)
Definition bytes_repr (bs : bytes) : string :=
  let quote := repr_quote bs in
  String "b" (String quote (repr_body quote bs +:+ String quote EmptyString)).

(** [str(n)] for an [int]: the decimal numeral, with a leading minus sign
    for a negative number. *)
Definition int_str (n : Z) : string := pretty n.

End Builtins.

Import Builtins.

(** ** Exceptions, objects and the interpreter state *)

(** A reference to a mapping object on the Python heap. *)
Abbreviation loc := positive.
(** The contents of a mapping from variable names to values. *)
Abbreviation dict := (gmap string string).

(** [subprocess.PIPE], [subprocess.STDOUT] and [subprocess.DEVNULL]. *)
Inductive redirect := PIPE | STDOUT | DEVNULL.

(** The arguments [Popen] is created with.  A stream left at [None] is not
    redirected; [popen_env = Some e] makes [e] the environment of the new
    process, [None] would let it inherit the parent's. *)
Record PopenArgs := mkPopenArgs {
  popen_args : list string;
  popen_stdin : option redirect;
  popen_stdout : option redirect;
  popen_stderr : option redirect;
  popen_env : option dict
}.

(** Where a stream of the child process is connected, from the value of the
    corresponding [Popen] argument. *)
Inductive stream := InheritedFromParent | Captured | MergedIntoStdout | Discarded.

Definition child_stream (r : option redirect) : stream :=
  match r with
  | None => InheritedFromParent
  | Some PIPE => Captured
  | Some STDOUT => MergedIntoStdout
  | Some DEVNULL => Discarded
  end.

(** An [OSError] raised by the process-spawn primitive, for example
    [FileNotFoundError] when the shell binary does not exist. *)
Record os_error := mkOSError { errno : Z; strerror : string }.

Inductive exn :=
| TypeError (msg : string)
| CalledProcessError (returncode : Z) (cmd : list string) (output : bytes)
| OSError (e : os_error)
| FAIL (msg : string).

Inductive result (A : Type) :=
| Return (a : A)
| Raise (e : exn).
Arguments Return {A} a.
Arguments Raise {A} e.

(** What the operating system makes of a spawn request: the process runs to
    completion with an exit status and the bytes it wrote to its captured
    stream, or the spawn itself fails. *)
Inductive outcome :=
| Exited (returncode : Z) (output : bytes)
| SpawnFailed (e : os_error).

(** The attributes of a [ShellTask] instance. *)
Record ShellTask := mkShellTask {
  self_command : option string;
  self_cd : option string;
  self_env : option loc;
  self_shell : string
}.

Section Interpreter.

(** The state of everything outside the Python process, and what a spawn
    request does in it. *)
Variable OS : Type.
Variable exec : PopenArgs -> OS -> outcome * OS.

(** A running child process: [Popen] object with its pipes. *)
Record Process := mkProcess {
  pid : nat;
  proc_args : list string;
  proc_returncode : Z;
  proc_output : bytes
}.

Record World := mkWorld {
  task : ShellTask;             (* the instance [self] *)
  heap : gmap loc dict;         (* mapping objects, by reference *)
  os_environ : loc;             (* the object [os.environ] *)
  popen_calls : list PopenArgs; (* every [Popen] so far, oldest first *)
  open_procs : list nat;        (* children whose handle or pipes are open *)
  os_state : OS
}.

Definition set_heap (h : gmap loc dict) (w : World) : World :=
  mkWorld (task w) h (os_environ w) (popen_calls w) (open_procs w) (os_state w).

(** *** A state and exception monad *)

Definition M (A : Type) : Type := World -> result A * World.

Definition ret {A} (a : A) : M A := fun w => (Return a, w).
Definition raise {A} (e : exn) : M A := fun w => (Raise e, w).
Definition bind {A B} (m : M A) (k : A -> M B) : M B :=
  fun w => match m w with
           | (Return a, w') => k a w'
           | (Raise e, w') => (Raise e, w')
           end.
(** [try: m except: h] *)
Definition try_except {A} (m : M A) (h : exn -> M A) : M A :=
  fun w => match m w with
           | (Return a, w') => (Return a, w')
           | (Raise e, w') => h e w'
           end.
(** Run [m], then [fin] whatever [m] did, as a [with] block does. *)
Definition finally {A} (m : M A) (fin : World -> World) : M A :=
  fun w => let '(r, w') := m w in (r, fin w').

Definition get_self : M ShellTask := fun w => (Return (task w), w).

Notation "'let!' x ':=' m 'in' k" := (bind m (fun x => k))
  (at level 10, x name, m at level 100, k at level 200, only parsing).

(** *** Mapping objects *)

(** The contents of the object at [l]. *)
Definition deref (h : gmap loc dict) (l : loc) : dict := default ∅ (h !! l).

(** Allocation of a new mapping object. *)
Definition alloc (d : dict) : M loc :=
  fun w => let l := fresh (dom (heap w)) in
           (Return l, set_heap (<[l := d]> (heap w)) w).

(** [m.copy()]: a new [dict] with the items of [m]. *)
Definition dict_copy (l : loc) : M loc :=
  fun w => alloc (deref (heap w) l) w.

(** [d.update(other)] sets [d[k] = v] for every item [(k, v)] of [other]. *)
Definition update_items (d other : dict) : dict :=
  map_fold (fun k v acc => <[k := v]> acc) d other.

Definition dict_update (l other : loc) : M unit :=
  fun w => let h := heap w in
           (Return tt, set_heap (<[l := update_items (deref h l) (deref h other)]> h) w).

(** [env or {}]: [env] when it is a non-empty mapping, a new empty [dict]
    when it is [None] or empty. *)
Definition or_empty (env : option loc) : M loc :=
  fun w => match env with
           | Some l => if decide (deref (heap w) l = ∅) then alloc ∅ w else (Return l, w)
           | None => alloc ∅ w
           end.

(** *** subprocess *)

(** [Popen(args, stdin, stdout, stderr, env)]: asks the operating system
    for a child process.  The request is recorded; a failed spawn raises
    [OSError] and leaves no handle behind. *)
Definition Popen (a : PopenArgs) : M Process :=
  fun w =>
    let '(o, s) := exec a (os_state w) in
    let n := length (popen_calls w) in
    let calls := popen_calls w ++ [a] in
    match o with
    | Exited rc out =>
        (Return (mkProcess n (popen_args a) rc out),
         mkWorld (task w) (heap w) (os_environ w) calls (n :: open_procs w) s)
    | SpawnFailed e =>
        (Raise (OSError e),
         mkWorld (task w) (heap w) (os_environ w) calls (open_procs w) s)
    end.

(** [process.communicate()]: waits for the child and returns what it wrote
    to the captured stream. *)
Definition communicate (p : Process) : M bytes := ret (proc_output p).

(** [process.poll()] after [communicate]: the exit status. *)
Definition poll (p : Process) : M Z := ret (proc_returncode p).

Fixpoint remove_first (n : nat) (l : list nat) : list nat :=
  match l with
  | [] => []
  | m :: l' => if decide (n = m) then l' else m :: remove_first n l'
  end.

(** [Popen.__exit__]: closes the pipes and waits for the child. *)
Definition close_process (p : Process) (w : World) : World :=
  mkWorld (task w) (heap w) (os_environ w) (popen_calls w)
    (remove_first (pid p) (open_procs w)) (os_state w).

(** [subprocess.check_output(args, stderr=..., env=...)], which is
    [run(args, stdout=PIPE, check=True, stderr=..., env=...).stdout]:
    no [stdin] and no [input] are passed on. *)
Definition check_output (args : list string) (stderr : option redirect) (env : loc)
  : M bytes :=
  fun w =>
    let a := mkPopenArgs args None (Some PIPE) stderr (Some (deref (heap w) env)) in
    (let! process := Popen a in
     finally
       (let! stdout := communicate process in
        let! retcode := poll process in
        if retcode =? 0 then ret stdout
        else raise (CalledProcessError retcode (proc_args process) stdout))
       (close_process process)) w.

(** *** ShellTask *)

(** [ShellTask.__init__]; [shell = None] stands for the omitted keyword,
    whose default is ["bash"]. *)
Definition __init__ (command cd : option string) (env : option loc)
    (shell : option string) : ShellTask :=
  mkShellTask command cd env (default "bash" shell).

(** ["cd {} && ".format(cd) + command] *)
Definition cd_prefix (cd command : string) : string :=
  ("cd " +:+ cd +:+ " && ") +:+ command.

(** ["Command failed with exit code {0}: {1}".format(returncode, output)] *)
Definition fail_message (returncode : Z) (output : bytes) : string :=
  "Command failed with exit code " +:+ int_str returncode +:+ ": "
    +:+ bytes_repr output.

(** The body of [ShellTask.run], lines 69-86. *)
Definition run_body (command : option string) (env : option loc) : M bytes :=
  match command with
  | None => raise (TypeError "run() missing required argument: 'command'")
  | Some command =>
      let! self := get_self in
      let command :=
        match self_cd self with
        | Some cd => cd_prefix cd command
        | None => command
        end in
      let! current_env := (fun w => dict_copy (os_environ w) w) in
      let! overrides := or_empty env in
      let! _ := dict_update current_env overrides in
      try_except
        (check_output [self_shell self; "-c"; command] (Some STDOUT) current_env)
        (fun exc =>
           match exc with
           | CalledProcessError returncode _ output =>
               raise (FAIL (fail_message returncode output))
           | e => raise e
           end)
  end.

(** Modelled from the spec: [prefect.utilities.tasks.defaults_from_attrs]
    is not among the sources.  The spec gives its contract: a call-time
    value wins over the value captured at construction time, which wins
    over absence. *)
Definition resolve {A} (call_value default_value : option A) : option A :=
  match call_value with
  | Some v => Some v
  | None => default_value
  end.

(** Modelled from the spec: the decorator [@defaults_from_attrs("command",
    "env")] resolves [command] and [env] against the attributes of the
    same names before the method body runs. *)
Definition defaults_from_attrs (run_method : option string -> option loc -> M bytes)
    (command : option string) (env : option loc) : M bytes :=
  let! self := get_self in
  run_method (resolve command (self_command self)) (resolve env (self_env self)).

(** [ShellTask.run] as callers see it. *)
Definition run : option string -> option loc -> M bytes :=
  defaults_from_attrs run_body.

End Interpreter.

Arguments mkWorld {OS}.
Arguments task {OS}.
Arguments heap {OS}.
Arguments os_environ {OS}.
Arguments popen_calls {OS}.
Arguments open_procs {OS}.
Arguments os_state {OS}.
Arguments set_heap {OS}.
Arguments ret {OS A}.
Arguments raise {OS A}.
Arguments bind {OS A B}.
Arguments try_except {OS A}.
Arguments finally {OS A}.
Arguments get_self {OS}.
Arguments alloc {OS}.
Arguments dict_copy {OS}.
Arguments dict_update {OS}.
Arguments or_empty {OS}.
Arguments Popen {OS}.
Arguments communicate {OS}.
Arguments poll {OS}.
Arguments close_process {OS}.
Arguments check_output {OS}.
Arguments run_body {OS}.
Arguments defaults_from_attrs {OS}.
Arguments run {OS}.

(** Every reference the invocation can follow points to an object. *)
Definition well_formed {OS} (w : World OS) (env : option loc) : Prop :=
  is_Some (heap w !! os_environ w)
  ∧ (∀ l, env = Some l → is_Some (heap w !! l))
  ∧ (∀ l, self_env (task w) = Some l → is_Some (heap w !! l)).

(** What [run] makes of the outcome of its spawn request. *)
Definition result_of (o : outcome) : result bytes :=
  match o with
  | Exited rc out => if rc =? 0 then Return out else Raise (FAIL (fail_message rc out))
  | SpawnFailed e => Raise (OSError e)
  end.

(** ** Reading a failure message back *)

Module Message.

(** Reading back one byte of the body of a [repr]: the inverse of
    [repr_byte], used to show that the message loses nothing. *)
Definition unhex (c : ascii) : option N :=
  let n := N_of_ascii c in
  if (48 <=? n)%N && (n <=? 57)%N then Some (n - 48)%N
  else if (97 <=? n)%N && (n <=? 102)%N then Some (n - 87)%N
  else None.

Definition unrepr_byte (quote : ascii) (s : string) : option (byte * string) :=
  match s with
  | EmptyString => None
  | String c rest =>
      if Ascii.eqb c backslash then
        match rest with
        | EmptyString => None
        | String c2 rest2 =>
            if Ascii.eqb c2 quote || Ascii.eqb c2 backslash then
              Some (byte_of_ascii c2, rest2)
            else if Ascii.eqb c2 "t" then Some (x09, rest2)
            else if Ascii.eqb c2 "n" then Some (x0a, rest2)
            else if Ascii.eqb c2 "r" then Some (x0d, rest2)
            else if Ascii.eqb c2 "x" then
              match rest2 with
              | String h1 (String h2 rest3) =>
                  match unhex h1, unhex h2 with
                  | Some n1, Some n2 =>
                      match Byte.of_N (16 * n1 + n2) with
                      | Some b => Some (b, rest3)
                      | None => None
                      end
                  | _, _ => None
                  end
              | _ => None
              end
            else None
        end
      else if Ascii.eqb c quote then None
      else Some (byte_of_ascii c, rest)
  end.

Fixpoint no_colon (s : string) : Prop :=
  match s with
  | EmptyString => True
  | String c s' => c ≠ ":"%char ∧ no_colon s'
  end.

End Message.

(** ** Printable text *)

Module Printable.

(** A character of the printable ASCII range, space to tilde. *)
Definition printable (c : ascii) : bool :=
  let n := N_of_ascii c in (32 <=? n)%N && (n <=? 126)%N.

Fixpoint all_printable (s : string) : bool :=
  match s with
  | EmptyString => true
  | String c s' => printable c && all_printable s'
  end.

End Printable.

(** ** A small operating system to run the task on *)

Module Example.

(** The state counts the processes run so far.  Only [bash] exists; the
    command [exit 3] fails with status 3 after writing [oops], every other
    command writes [hello] and succeeds. *)
Definition toy_exec (a : PopenArgs) (s : nat) : outcome * nat :=
  match popen_args a with
  | [sh; _; c] =>
      if decide (sh = "bash") then
        if decide (c = "exit 3") then (Exited 3 [x6f; x6f; x70; x73; x0a], S s)
        else (Exited 0 [x68; x65; x6c; x6c; x6f; x0a], S s)
      else (SpawnFailed (mkOSError 2 "No such file or directory"), s)
  | _ => (SpawnFailed (mkOSError 22 "Invalid argument"), s)
  end.

Definition inherited : dict := {[ "PATH" := "/usr/bin"; "HOME" := "/root" ]}.
Definition extra : dict := {[ "FOO" := "bar"; "HOME" := "/srv" ]}.

(** [os.environ] is object 1, the caller's overrides are object 2. *)
Definition toy_heap : gmap loc dict := {[ 1%positive := inherited; 2%positive := extra ]}.

Definition toy_world (self : ShellTask) : World nat :=
  mkWorld self toy_heap 1%positive [] [] 0%nat.

(** [ShellTask()], [ShellTask(cd="/tmp", env=extra)] and
    [ShellTask(shell="zsh")]. *)
Definition plain_task : ShellTask := __init__ None None None None.
Definition tmp_task : ShellTask :=
  __init__ None (Some "/tmp") (Some 2%positive) None.
Definition zsh_task : ShellTask := __init__ None None None (Some "zsh").

End Example.

(** ** Mapping objects *)

Lemma update_items_union (d other : dict) : update_items d other = other ∪ d.
Proof.
  unfold update_items.
  induction other as [|k v other Hk Hfold IH] using map_first_key_ind.
  - by rewrite map_fold_empty, (left_id_L ∅ (∪)).
  - rewrite map_fold_insert_first_key by done.
    by rewrite IH, insert_union_l.
Qed.

Lemma update_items_lookup (d other : dict) k :
  update_items d other !! k =
    match other !! k with Some v => Some v | None => d !! k end.
Proof.
  rewrite update_items_union, lookup_union.
  destruct (other !! k), (d !! k); done.
Qed.

Lemma update_items_empty (d : dict) : update_items d ∅ = d.
Proof. by rewrite update_items_union, (left_id_L ∅ (∪)). Qed.

(** ** The failure message determines the exit code and the output *)

Module MessageFacts.

Import Message.

Lemma unrepr_repr_byte quote b s :
  quote = squote ∨ quote = dquote →
  unrepr_byte quote (repr_byte quote b +:+ s) = Some (b, s).
Proof. intros [-> | ->]; destruct b; reflexivity. Qed.

Lemma unrepr_byte_quote quote s :
  quote = squote ∨ quote = dquote →
  unrepr_byte quote (String quote s) = None.
Proof. intros [-> | ->]; reflexivity. Qed.

Lemma string_app_assoc (s1 s2 s3 : string) :
  (s1 +:+ s2) +:+ s3 = s1 +:+ s2 +:+ s3.
Proof.
  induction s1 as [|a s1 IH]; [done|].
  change (String a ((s1 +:+ s2) +:+ s3) = String a (s1 +:+ s2 +:+ s3)).
  by rewrite IH.
Qed.

Lemma repr_body_inj quote bs1 bs2 s1 s2 :
  quote = squote ∨ quote = dquote →
  repr_body quote bs1 +:+ String quote s1
  = repr_body quote bs2 +:+ String quote s2 →
  bs1 = bs2 ∧ s1 = s2.
Proof.
  intros Hq. revert bs2.
  induction bs1 as [|b1 bs1 IH]; intros [|b2 bs2] Heq; cbn [repr_body] in Heq.
  - change (String quote s1 = String quote s2) in Heq. by simplify_eq.
  - rewrite string_app_assoc in Heq. apply (f_equal (unrepr_byte quote)) in Heq.
    change (EmptyString +:+ ?s) with s in Heq.
    by rewrite unrepr_byte_quote, unrepr_repr_byte in Heq.
  - rewrite string_app_assoc in Heq. apply (f_equal (unrepr_byte quote)) in Heq.
    change (EmptyString +:+ ?s) with s in Heq.
    by rewrite unrepr_byte_quote, unrepr_repr_byte in Heq.
  - rewrite !string_app_assoc in Heq.
    apply (f_equal (unrepr_byte quote)) in Heq.
    rewrite !unrepr_repr_byte in Heq by done.
    injection Heq as -> Heq. destruct (IH _ Heq) as [-> ->]. done.
Qed.

Lemma repr_quote_cases bs : repr_quote bs = squote ∨ repr_quote bs = dquote.
Proof. unfold repr_quote. destruct (_ && _); auto. Qed.

Lemma bytes_repr_inj bs1 bs2 : bytes_repr bs1 = bytes_repr bs2 → bs1 = bs2.
Proof.
  unfold bytes_repr. intros [= Hq Heq]. rewrite Hq in Heq.
  by destruct (repr_body_inj _ _ _ _ _ (repr_quote_cases bs2) Heq).
Qed.

Lemma pretty_N_char_no_colon x : pretty_N_char x ≠ ":"%char.
Proof. unfold pretty_N_char. by repeat case_match. Qed.

Lemma pretty_N_go_no_colon x s : no_colon s → no_colon (pretty_N_go x s).
Proof.
  revert s. induction (N.lt_wf_0 x) as [x _ IH]; intros s Hs.
  assert (x = 0 ∨ 0 < x)%N as [->|?] by lia.
  - by rewrite pretty_N_go_0.
  - rewrite pretty_N_go_step by done. apply IH.
    + by apply N.div_lt.
    + split; [apply pretty_N_char_no_colon|done].
Qed.

Lemma pretty_N_no_colon (x : N) : no_colon (pretty x).
Proof.
  unfold pretty, pretty_N. case_decide.
  - by split.
  - by apply pretty_N_go_no_colon.
Qed.

Lemma int_str_no_colon n : no_colon (int_str n).
Proof.
  unfold int_str, pretty, pretty_Z. destruct n as [|p|p].
  - by split.
  - apply pretty_N_no_colon.
  - split; [done|apply pretty_N_no_colon].
Qed.

(** Two strings cut at their first colon agree piecewise. *)
Lemma first_colon_inj s1 s2 t1 t2 :
  no_colon s1 → no_colon s2 →
  s1 +:+ String ":" t1 = s2 +:+ String ":" t2 →
  s1 = s2 ∧ t1 = t2.
Proof.
  revert s2. induction s1 as [|a s1 IH]; intros [|b s2] H1 H2 Heq.
  - change (String ":" t1 = String ":" t2) in Heq. by simplify_eq.
  - change (String ":" t1 = String b (s2 +:+ String ":" t2)) in Heq.
    destruct H2 as [H2 _]. by simplify_eq.
  - change (String a (s1 +:+ String ":" t1) = String ":" t2) in Heq.
    destruct H1 as [H1 _]. by simplify_eq.
  - change (String a (s1 +:+ String ":" t1) = String b (s2 +:+ String ":" t2)) in Heq.
    injection Heq as -> Heq. destruct H1 as [_ H1], H2 as [_ H2].
    destruct (IH _ H1 H2 Heq) as [-> ->]. done.
Qed.

End MessageFacts.

Lemma fail_message_inj rc1 out1 rc2 out2 :
  fail_message rc1 out1 = fail_message rc2 out2 → rc1 = rc2 ∧ out1 = out2.
Proof.
  unfold fail_message. intros Heq.
  apply (inj (String.app _)) in Heq.
  change (": " +:+ ?s) with (String ":" (String " " s)) in Heq.
  apply MessageFacts.first_colon_inj in Heq as [Hrc Hout];
    [|apply MessageFacts.int_str_no_colon..].
  split.
  - unfold int_str in Hrc. exact (pretty_Z_inj _ _ Hrc).
  - apply MessageFacts.bytes_repr_inj. congruence.
Qed.

Section Correctness.

Context {OS : Type} (exec : PopenArgs → OS → outcome * OS).

Lemma remove_first_head n l : remove_first n (n :: l) = l.
Proof. simpl. by rewrite decide_True. Qed.

(** [check_output] followed by the handler of [run]. *)
Lemma check_output_handled (w : World OS) args stderr env o s :
  let a := mkPopenArgs args None (Some PIPE) stderr (Some (deref (heap w) env)) in
  exec a (os_state w) = (o, s) →
  try_except (check_output exec args stderr env)
    (λ exc, match exc with
            | CalledProcessError returncode _ output =>
                raise (FAIL (fail_message returncode output))
            | e => raise e
            end) w
  = (result_of o,
     mkWorld (task w) (heap w) (os_environ w) (popen_calls w ++ [a])
       (open_procs w) s).
Proof.
  intros a Hexec.
  unfold try_except, check_output, bind, Popen. fold a. rewrite Hexec.
  destruct o as [rc out|e]; simpl; [|done].
  unfold finally, bind, communicate, poll, ret, raise, close_process; simpl.
  destruct (rc =? 0); simpl; by rewrite decide_True.
Qed.

Lemma fresh_not_live (h : gmap loc dict) l :
  is_Some (h !! l) → l ≠ fresh (dom h).
Proof.
  intros Hl ->. apply (is_fresh (dom h)). by apply elem_of_dom.
Qed.

Lemma deref_insert_eq (h : gmap loc dict) l d : deref (<[l := d]> h) l = d.
Proof. unfold deref. by rewrite lookup_insert_eq. Qed.

Lemma deref_insert_ne (h : gmap loc dict) l l' d :
  l ≠ l' → deref (<[l := d]> h) l' = deref h l'.
Proof. intros. unfold deref. by rewrite lookup_insert_ne. Qed.

Lemma deref_Some (h : gmap loc dict) l d : h !! l = Some d → deref h l = d.
Proof. intros Hl. unfold deref. by rewrite Hl. Qed.

(** [current_env.update(overrides)] followed by the guarded spawn. *)
Lemma update_then_spawn (w : World OS) h l ov args o s :
  let E := update_items (deref h l) (deref h ov) in
  let a := mkPopenArgs args None (Some PIPE) (Some STDOUT) (Some E) in
  exec a (os_state w) = (o, s) →
  bind (dict_update l ov)
    (λ _, try_except (check_output exec args (Some STDOUT) l)
            (λ exc, match exc with
                    | CalledProcessError returncode _ output =>
                        raise (FAIL (fail_message returncode output))
                    | e => raise e
                    end)) (set_heap h w)
  = (result_of o,
     mkWorld (task w) (<[l := E]> h) (os_environ w) (popen_calls w ++ [a])
       (open_procs w) s).
Proof.
  intros E a Hexec. unfold bind, dict_update. cbn [heap set_heap].
  fold E.
  rewrite (check_output_handled (set_heap (<[l := E]> h) (set_heap h w))
             args (Some STDOUT) l o s).
  - f_equal. cbn. by rewrite deref_insert_eq.
  - cbn. by rewrite deref_insert_eq.
Qed.

Lemma run_body_spawns (w : World OS) c env :
  ∃ h' E,
    let a := mkPopenArgs
               [self_shell (task w); "-c";
                match self_cd (task w) with
                | Some cd => cd_prefix cd c
                | None => c
                end]
               None (Some PIPE) (Some STDOUT) (Some E) in
    (∀ l, is_Some (heap w !! l) → h' !! l = heap w !! l)
    ∧ (∀ I, heap w !! os_environ w = Some I →
         (∀ l O, env = Some l → heap w !! l = Some O → E = O ∪ I)
         ∧ (env = None → E = I))
    ∧ (∀ o s, exec a (os_state w) = (o, s) →
         run_body exec (Some c) env w
         = (result_of o,
            mkWorld (task w) h' (os_environ w) (popen_calls w ++ [a])
              (open_procs w) s)).
Proof.
  unfold run_body, bind at 1 2, get_self. cbn beta iota.
  unfold dict_copy, alloc.
  set (l1 := fresh (dom (heap w))).
  set (I0 := deref (heap w) (os_environ w)).
  set (h1 := <[l1 := I0]> (heap w)).
  assert (Hl1 : ∀ l, is_Some (heap w !! l) → l1 ≠ l).
  { intros l Hl He. by apply (fresh_not_live (heap w) l). }
  assert (Hfresh2 : ∀ l, is_Some (h1 !! l) → fresh (dom h1) ≠ l).
  { intros l Hl He. by apply (fresh_not_live h1 l). }
  assert (Hframe1 : ∀ l, is_Some (heap w !! l) → h1 !! l = heap w !! l).
  { intros l Hl. unfold h1. rewrite lookup_insert_ne; auto. }
  assert (Hempty : ∀ E,
    E = update_items I0 ∅ →
    let h2 := <[fresh (dom h1) := ∅]> h1 in
    (∀ l, is_Some (heap w !! l) → <[l1 := E]> h2 !! l = heap w !! l)
    ∧ E = update_items (deref h2 l1) (deref h2 (fresh (dom h1)))).
  { intros E -> h2. split.
    - intros l Hl. rewrite lookup_insert_ne by auto.
      unfold h2. rewrite lookup_insert_ne; [auto|].
      apply Hfresh2. rewrite Hframe1; auto.
    - unfold h2. rewrite deref_insert_eq, deref_insert_ne.
      + unfold h1. by rewrite deref_insert_eq.
      + apply Hfresh2. unfold h1. rewrite lookup_insert_eq. eauto. }
  destruct env as [l|]; unfold bind at 1, or_empty; cbn [heap set_heap];
    [destruct (decide (deref h1 l = ∅)) as [Hemp|Hne]|].
  - (* the overrides are an empty mapping: [{}] is used *)
    destruct (Hempty _ eq_refl) as [Hfr HE].
    eexists _, (update_items I0 ∅). split_and!; [exact Hfr| |].
    + intros I HI. split; [|done]. intros l' O [= <-] HO.
      rewrite update_items_empty. unfold I0. rewrite (deref_Some _ _ _ HI).
      assert (deref h1 l = O) as HO'.
      { unfold deref. rewrite Hframe1 by eauto. by rewrite HO. }
      rewrite HO' in Hemp. subst O. by rewrite (left_id_L ∅ (∪)).
    + intros o s Hexec. unfold alloc. cbn [heap set_heap].
      change (set_heap ?h (set_heap _ w)) with (set_heap h w).
      rewrite HE in Hexec |- *.
      by rewrite (update_then_spawn w _ l1 _ _ o s Hexec).
  - (* non-empty overrides *)
    exists (<[l1 := update_items (deref h1 l1) (deref h1 l)]> h1),
           (update_items (deref h1 l1) (deref h1 l)).
    split_and!.
    + intros l' Hl'. rewrite lookup_insert_ne by auto. auto.
    + intros I HI. split; [|done]. intros l' O [= <-] HO.
      unfold h1 at 1. rewrite deref_insert_eq.
      unfold I0. rewrite (deref_Some _ _ _ HI).
      assert (deref h1 l = O) as ->.
      { unfold deref. rewrite Hframe1 by eauto. by rewrite HO. }
      apply update_items_union.
    + intros o s Hexec.
      by rewrite (update_then_spawn w _ l1 _ _ o s Hexec).
  - (* no overrides *)
    destruct (Hempty _ eq_refl) as [Hfr HE].
    eexists _, (update_items I0 ∅). split_and!; [exact Hfr| |].
    + intros I HI. split; [done|]. intros _.
      rewrite update_items_empty. unfold I0. by rewrite (deref_Some _ _ _ HI).
    + intros o s Hexec. unfold alloc. cbn [heap set_heap].
      change (set_heap ?h (set_heap _ w)) with (set_heap h w).
      rewrite HE in Hexec |- *.
      by rewrite (update_then_spawn w _ l1 _ _ o s Hexec).
Qed.

Lemma run_unfold (w : World OS) command env :
  run exec command env w
  = run_body exec (resolve command (self_command (task w)))
      (resolve env (self_env (task w))) w.
Proof. reflexivity. Qed.

(** An invocation without a command stops before anything else happens. *)
Lemma run_missing_command (w : World OS) command env :
  resolve command (self_command (task w)) = None →
  run exec command env w
  = (Raise (TypeError "run() missing required argument: 'command'"), w).
Proof. intros Hc. rewrite run_unfold, Hc. reflexivity. Qed.

(** An invocation with a command makes exactly one spawn request and its
    result is decided by the outcome of that request. *)
Lemma run_spawns (w : World OS) command env c :
  resolve command (self_command (task w)) = Some c →
  ∃ h' E o s,
    let a := mkPopenArgs
               [self_shell (task w); "-c";
                match self_cd (task w) with
                | Some cd => cd_prefix cd c
                | None => c
                end]
               None (Some PIPE) (Some STDOUT) (Some E) in
    (∀ l, is_Some (heap w !! l) → h' !! l = heap w !! l)
    ∧ (∀ I, heap w !! os_environ w = Some I →
         (∀ l O, resolve env (self_env (task w)) = Some l →
                 heap w !! l = Some O → E = O ∪ I)
         ∧ (resolve env (self_env (task w)) = None → E = I))
    ∧ exec a (os_state w) = (o, s)
    ∧ run exec command env w
      = (result_of o,
         mkWorld (task w) h' (os_environ w) (popen_calls w ++ [a])
           (open_procs w) s).
Proof.
  intros Hc. rewrite run_unfold, Hc.
  destruct (run_body_spawns w c (resolve env (self_env (task w))))
    as (h' & E & Hframe & HE & Hrun).
  cbn zeta in Hrun.
  destruct (exec (mkPopenArgs
               [self_shell (task w); "-c";
                match self_cd (task w) with
                | Some cd => cd_prefix cd c
                | None => c
                end]
               None (Some PIPE) (Some STDOUT) (Some E)) (os_state w))
    as [o s] eqn:Hexec.
  exists h', E, o, s. cbn zeta. split_and!; auto.
Qed.

Lemma append_assoc (s1 s2 s3 : string) : (s1 +:+ s2) +:+ s3 = s1 +:+ s2 +:+ s3.
Proof.
  induction s1 as [|a s1 IH]; [done|].
  change (String a ((s1 +:+ s2) +:+ s3) = String a (s1 +:+ s2 +:+ s3)).
  by rewrite IH.
Qed.

Lemma cd_prefix_flat (cd c : string) : cd_prefix cd c = "cd " +:+ cd +:+ " && " +:+ c.
Proof. unfold cd_prefix. by rewrite !append_assoc. Qed.

(** ** The claims *)

(** C2: when the command is absent at call time and in the attributes,
    [run] raises [TypeError], which is not the [FAIL] signal of a failed
    command, and the world is as before: no process was requested. *)
Theorem run_missing_command_is_type_error (w : World OS) env :
  self_command (task w) = None →
  run exec None env w
  = (Raise (TypeError "run() missing required argument: 'command'"), w)
  ∧ popen_calls (run exec None env w).2 = popen_calls w
  ∧ ∀ m, (run exec None env w).1 ≠ Raise (FAIL m).
Proof.
  intros Hc. rewrite (run_missing_command w None env) by done.
  split_and!; [done..|]. intros m. discriminate.
Qed.

(** C3: the third element of the argument vector is the command itself
    when no working directory is configured, and [cd d && c] when the
    working directory is [d]. *)
Theorem run_command_composition (w : World OS) command env c :
  resolve command (self_command (task w)) = Some c →
  ∃ a sh,
    popen_calls (run exec command env w).2 = popen_calls w ++ [a]
    ∧ (self_cd (task w) = None → popen_args a = [sh; "-c"; c])
    ∧ (∀ d, self_cd (task w) = Some d →
            popen_args a = [sh; "-c"; "cd " +:+ d +:+ " && " +:+ c]).
Proof.
  intros Hc.
  destruct (run_spawns w command env c Hc) as (h' & E & o & s & _ & _ & _ & Hrun).
  cbn zeta in Hrun. rewrite Hrun. eexists _, (self_shell (task w)).
  split_and!; [done|..]; cbn.
  - by intros ->.
  - intros d ->. by rewrite cd_prefix_flat.
Qed.

(** C4: the environment of the child is the inherited environment with
    every override set: a name in the overrides has the override's value,
    any other name has its inherited value, no inherited name is lost, and
    without overrides the inherited environment is handed over as it is. *)
Theorem run_environment_composition (w : World OS) command env c I :
  resolve command (self_command (task w)) = Some c →
  heap w !! os_environ w = Some I →
  ∃ a E,
    popen_calls (run exec command env w).2 = popen_calls w ++ [a]
    ∧ popen_env a = Some E
    ∧ (∀ l O, resolve env (self_env (task w)) = Some l →
              heap w !! l = Some O →
              (∀ k v, O !! k = Some v → E !! k = Some v)
              ∧ (∀ k, O !! k = None → E !! k = I !! k)
              ∧ dom I ⊆ dom E)
    ∧ (resolve env (self_env (task w)) = None → E = I).
Proof.
  intros Hc HI.
  destruct (run_spawns w command env c Hc) as (h' & E & o & s & _ & HE & _ & Hrun).
  cbn zeta in Hrun. rewrite Hrun. destruct (HE I HI) as [HSome HNone].
  eexists _, E. split_and!; [done|done| |done].
  intros l O Hl HO. rewrite (HSome l O Hl HO). split_and!.
  - intros k v Hk. by rewrite lookup_union, Hk, union_Some_l.
  - intros k Hk. by rewrite lookup_union, Hk, (left_id None _).
  - rewrite dom_union_L. apply union_subseteq_r.
Qed.

(** C5, as the code has it: the request is [[shell; "-c"; command]] with
    the composed environment as the environment of the child, standard
    output captured and standard error merged into it; no [stdin] is
    passed, so the child reads the standard input of the parent.  The
    shell is ["bash"] unless the constructor is given another. *)
Theorem run_spawn_request (w : World OS) command env c :
  resolve command (self_command (task w)) = Some c →
  ∃ a E,
    popen_calls (run exec command env w).2 = popen_calls w ++ [a]
    ∧ a = mkPopenArgs
            [self_shell (task w); "-c";
             match self_cd (task w) with
             | Some d => ("cd " +:+ d +:+ " && ") +:+ c
             | None => c
             end]
            None (Some PIPE) (Some STDOUT) (Some E)
    ∧ (∀ I, heap w !! os_environ w = Some I →
         (∀ l O, resolve env (self_env (task w)) = Some l →
                 heap w !! l = Some O → E = O ∪ I)
         ∧ (resolve env (self_env (task w)) = None → E = I))
    ∧ child_stream (popen_stdin a) = InheritedFromParent
    ∧ child_stream (popen_stdout a) = Captured
    ∧ child_stream (popen_stderr a) = MergedIntoStdout
    ∧ (∀ cmd cd e, self_shell (__init__ cmd cd e None) = "bash").
Proof.
  intros Hc.
  destruct (run_spawns w command env c Hc) as (h' & E & o & s & _ & HE & _ & Hrun).
  cbn zeta in Hrun. rewrite Hrun. eexists _, E.
  split_and!; [done|reflexivity|exact HE|done..].
Qed.

(** C6: when the operating system cannot spawn the process, [run] raises
    the [OSError] of the spawn primitive: it neither returns nor raises
    the [FAIL] signal. *)
Theorem run_spawn_failure_surfaces (w : World OS) command env c a e :
  resolve command (self_command (task w)) = Some c →
  last (popen_calls (run exec command env w).2) = Some a →
  (exec a (os_state w)).1 = SpawnFailed e →
  (run exec command env w).1 = Raise (OSError e)
  ∧ (∀ out, (run exec command env w).1 ≠ Return out)
  ∧ (∀ m, (run exec command env w).1 ≠ Raise (FAIL m)).
Proof.
  intros Hc.
  destruct (run_spawns w command env c Hc) as (h' & E & o & s & _ & _ & Hexec & Hrun).
  cbn zeta in Hrun, Hexec. rewrite Hrun. cbn [fst snd popen_calls].
  rewrite last_snoc. intros [= <-]. rewrite Hexec. cbn [fst]. intros ->.
  cbn. split_and!; [done|intros; discriminate..].
Qed.

(** C7: [command] and [env] are resolved in two tiers before the body of
    [run] sees them: a value given at the call is used, an omitted one is
    replaced by the attribute, and absence at both levels is absence. *)
Theorem run_two_tier_resolution (w : World OS) command env :
  run exec command env w
  = run_body exec
      (match command with Some c => Some c | None => self_command (task w) end)
      (match env with Some e => Some e | None => self_env (task w) end) w
  ∧ (∀ A (v : A) d, resolve (Some v) d = Some v)
  ∧ (∀ A (d : option A), resolve None d = d)
  ∧ (∀ A, resolve (@None A) None = None).
Proof. split_and!; reflexivity. Qed.

(** C9: an invocation leaves the attributes of the task, the reference
    [os.environ], and every mapping object that existed before it as they
    were, in particular the inherited environment and the caller's
    overrides; no child process is left open. *)
Theorem run_frame (w : World OS) command env :
  let w' := (run exec command env w).2 in
  task w' = task w
  ∧ os_environ w' = os_environ w
  ∧ (∀ l, is_Some (heap w !! l) → heap w' !! l = heap w !! l)
  ∧ (∀ I, heap w !! os_environ w = Some I → heap w' !! os_environ w' = Some I)
  ∧ (∀ l O, env = Some l → heap w !! l = Some O → heap w' !! l = Some O)
  ∧ open_procs w' = open_procs w.
Proof.
  cbn zeta.
  destruct (resolve command (self_command (task w))) as [c|] eqn:Hc.
  - destruct (run_spawns w command env c Hc)
      as (h' & E & o & s & Hframe & _ & _ & Hrun).
    cbn zeta in Hrun. rewrite Hrun. cbn [fst snd task heap os_environ open_procs].
    split_and!; [done|done|exact Hframe| | |done].
    + intros I HI. rewrite Hframe by eauto. done.
    + intros l O _ HO. rewrite Hframe by eauto. done.
  - rewrite (run_missing_command w command env Hc). cbn [snd].
    split_and!; auto.
Qed.

(** C10: [run] raises [TypeError] exactly when no command is resolved; an
    empty command is a command, and a process is requested for it. *)
Theorem run_empty_command_spawns (w : World OS) command env :
  ((∃ m, (run exec command env w).1 = Raise (TypeError m))
   ↔ resolve command (self_command (task w)) = None)
  ∧ (resolve command (self_command (task w)) = Some EmptyString →
     ∃ a sh s,
       popen_calls (run exec command env w).2 = popen_calls w ++ [a]
       ∧ popen_args a = [sh; "-c"; s]).
Proof.
  split.
  - destruct (resolve command (self_command (task w))) as [c|] eqn:Hc.
    + destruct (run_spawns w command env c Hc)
        as (h' & E & o & s & _ & _ & _ & Hrun).
      cbn zeta in Hrun. rewrite Hrun. cbn [fst].
      split; [|done]. intros [m Hm].
      destruct o as [rc out|e]; cbn in Hm; [destruct (rc =? 0)|]; discriminate.
    + rewrite (run_missing_command w command env Hc). split; [done|eauto].
  - intros Hc.
    destruct (run_spawns w command env _ Hc)
      as (h' & E & o & s & _ & _ & _ & Hrun).
    cbn zeta in Hrun. rewrite Hrun. eexists _, _, _. split; reflexivity.
Qed.

Lemma resolve_live (w : World OS) env l :
  well_formed w env →
  resolve env (self_env (task w)) = Some l →
  is_Some (heap w !! l).
Proof.
  intros (_ & Henv & Hself) Hl. destruct env as [l'|]; cbn in Hl.
  - apply Henv. congruence.
  - by apply Hself.
Qed.

(** C8: two invocations in a row with the same arguments, on a system that
    answers the request of the first invocation the same way the second
    time, end the same way: the same bytes returned or the same exception
    with the same message. *)
Theorem run_repeatable (w : World OS) command env :
  well_formed w env →
  (∀ a, popen_calls (run exec command env w).2 = popen_calls w ++ [a] →
        (exec a (os_state (run exec command env w).2)).1
        = (exec a (os_state w)).1) →
  (run exec command env (run exec command env w).2).1
  = (run exec command env w).1.
Proof.
  intros Hwf Hsame.
  destruct (resolve command (self_command (task w))) as [c|] eqn:Hc.
  - destruct (run_spawns w command env c Hc)
      as (h1 & E1 & o1 & s1 & Hframe & HE1 & Hexec1 & Hrun1).
    cbn zeta in Hrun1, Hexec1. rewrite Hrun1 in Hsame |- *.
    cbn [fst snd popen_calls os_state] in Hsame |- *.
    set (w1 := mkWorld (task w) h1 (os_environ w) _ (open_procs w) s1) in *.
    destruct (run_spawns w1 command env c Hc)
      as (h2 & E2 & o2 & s2 & _ & HE2 & Hexec2 & Hrun2).
    cbn zeta in Hrun2, Hexec2. rewrite Hrun2. cbn [fst]. f_equal.
    assert (E2 = E1) as ->.
    { pose proof (resolve_live w env) as Hres.
      destruct (Hwf) as [[I HI] _].
      destruct (HE1 I HI) as [HS1 HN1].
      destruct (HE2 I) as [HS2 HN2].
      { cbn. rewrite Hframe by eauto. done. }
      unfold w1 in HS2, HN2. cbn [task heap] in HS2, HN2.
      destruct (resolve env (self_env (task w))) as [l|].
      - destruct (Hres l Hwf eq_refl) as [O HO].
        rewrite (HS1 l O eq_refl HO). apply (HS2 l O eq_refl).
        rewrite Hframe by eauto. done.
      - by rewrite HN1, HN2. }
    unfold w1 in Hexec2. cbn [task os_state] in Hexec2.
    specialize (Hsame _ eq_refl). rewrite Hexec1, Hexec2 in Hsame.
    exact Hsame.
  - rewrite (run_missing_command w command env Hc). cbn [snd].
    by rewrite (run_missing_command w command env Hc).
Qed.

(** The exit status decides between returning and raising [FAIL]. *)
Lemma run_exit_code (w : World OS) command env c a rc out :
  resolve command (self_command (task w)) = Some c →
  last (popen_calls (run exec command env w).2) = Some a →
  (exec a (os_state w)).1 = Exited rc out →
  (run exec command env w).1
  = if rc =? 0 then Return out else Raise (FAIL (fail_message rc out)).
Proof.
  intros Hc.
  destruct (run_spawns w command env c Hc) as (h' & E & o & s & _ & _ & Hexec & Hrun).
  cbn zeta in Hrun, Hexec. rewrite Hrun. cbn [fst snd popen_calls].
  rewrite last_snoc. intros [= <-]. rewrite Hexec. cbn [fst]. by intros ->.
Qed.

(** C1: with a command, the exit status of the spawned process decides:
    status 0 returns the captured bytes as they are; any other status
    raises [FAIL] with the message
    [Command failed with exit code {status}: {output}], the output being
    rendered as [repr] of the bytes; [FAIL] is raised in no other case, and
    the message determines both the status and the bytes. *)
Theorem run_exit_code_classification (w : World OS) command env c a rc out :
  resolve command (self_command (task w)) = Some c →
  last (popen_calls (run exec command env w).2) = Some a →
  (exec a (os_state w)).1 = Exited rc out →
  (rc = 0 → (run exec command env w).1 = Return out)
  ∧ (rc ≠ 0 →
     (run exec command env w).1
     = Raise (FAIL ("Command failed with exit code " +:+ int_str rc +:+ ": "
                      +:+ bytes_repr out)))
  ∧ ((∃ m, (run exec command env w).1 = Raise (FAIL m)) ↔ rc ≠ 0)
  ∧ (∀ rc' out', fail_message rc' out' = fail_message rc out →
                 rc' = rc ∧ out' = out).
Proof.
  intros Hc Ha Hexec.
  rewrite (run_exit_code w command env c a rc out Hc Ha Hexec).
  split_and!.
  - intros ->. done.
  - intros Hrc. apply Z.eqb_neq in Hrc. by rewrite Hrc.
  - destruct (Z.eqb_spec rc 0) as [->|Hrc]; split; try done.
    + intros [m Hm]. discriminate.
    + eauto.
  - intros rc' out'. apply fail_message_inj.
Qed.

End Correctness.

(** ** Further properties of [run] *)

Module PrintableFacts.

Import Printable.

Lemma all_printable_app s1 s2 :
  all_printable (s1 +:+ s2) = all_printable s1 && all_printable s2.
Proof.
  induction s1 as [|a s1 IH]; [done|].
  change (printable a && all_printable (s1 +:+ s2)
          = printable a && all_printable s1 && all_printable s2).
  by rewrite IH, andb_assoc.
Qed.

Lemma repr_byte_printable quote b :
  quote = squote ∨ quote = dquote → all_printable (repr_byte quote b) = true.
Proof. intros [-> | ->]; destruct b; reflexivity. Qed.

Lemma repr_body_printable quote bs :
  quote = squote ∨ quote = dquote → all_printable (repr_body quote bs) = true.
Proof.
  intros Hq. induction bs as [|b bs IH]; [done|].
  cbn [repr_body]. by rewrite all_printable_app, repr_byte_printable, IH.
Qed.

Lemma bytes_repr_printable bs : all_printable (bytes_repr bs) = true.
Proof.
  unfold bytes_repr.
  pose proof (MessageFacts.repr_quote_cases bs) as Hq.
  cbn [all_printable].
  rewrite all_printable_app, repr_body_printable by done.
  destruct Hq as [-> | ->]; reflexivity.
Qed.

Lemma pretty_N_char_printable x : printable (pretty_N_char x) = true.
Proof. unfold pretty_N_char. by repeat case_match. Qed.

Lemma pretty_N_go_printable x s :
  all_printable s = true → all_printable (pretty_N_go x s) = true.
Proof.
  revert s. induction (N.lt_wf_0 x) as [x _ IH]; intros s Hs.
  assert (x = 0 ∨ 0 < x)%N as [->|?] by lia.
  - by rewrite pretty_N_go_0.
  - rewrite pretty_N_go_step by done. apply IH.
    + by apply N.div_lt.
    + cbn [all_printable]. by rewrite pretty_N_char_printable, Hs.
Qed.

Lemma pretty_N_printable (x : N) : all_printable (pretty x) = true.
Proof.
  unfold pretty, pretty_N. case_decide; [done|].
  by apply pretty_N_go_printable.
Qed.

Lemma int_str_printable n : all_printable (int_str n) = true.
Proof.
  unfold int_str, pretty, pretty_Z. destruct n as [|p|p].
  - done.
  - apply pretty_N_printable.
  - change (all_printable ("-" +:+ ?s)) with (printable "-" && all_printable s).
    unfold pretty, pretty_positive. by rewrite pretty_N_printable.
Qed.

Lemma fail_message_printable rc out : all_printable (fail_message rc out) = true.
Proof.
  unfold fail_message.
  by rewrite !all_printable_app, int_str_printable, bytes_repr_printable.
Qed.

End PrintableFacts.

Section Further.

Context {OS : Type} (exec : PopenArgs → OS → outcome * OS).

(** X1: when [run] returns bytes, a command was resolved, exactly one
    process was requested, it exited with status 0, and the bytes returned
    are the ones it wrote. *)
Theorem run_return_sound (w : World OS) command env out :
  (run exec command env w).1 = Return out →
  ∃ c a s,
    resolve command (self_command (task w)) = Some c
    ∧ popen_calls (run exec command env w).2 = popen_calls w ++ [a]
    ∧ exec a (os_state w) = (Exited 0 out, s).
Proof.
  destruct (resolve command (self_command (task w))) as [c|] eqn:Hc.
  - destruct (run_spawns exec w command env c Hc)
      as (h' & E & o & s & _ & _ & Hexec & Hrun).
    cbn zeta in Hrun, Hexec. rewrite Hrun. cbn [fst snd popen_calls].
    intros Hret. exists c. eexists _, s. split_and!; [done|done|].
    rewrite Hexec. destruct o as [rc out'|e]; cbn in Hret; [|discriminate].
    destruct (Z.eqb_spec rc 0) as [->|_]; [|discriminate]. congruence.
  - rewrite (run_missing_command exec w command env Hc). discriminate.
Qed.


(** X3: what an invocation asks of the operating system does not depend on
    the invocations before it: after any other call of [run], with any
    command and any overrides, it makes the request it would have made
    first. *)
Theorem run_requests_independent (w : World OS) command1 env1 command2 env2 a :
  well_formed w env2 →
  popen_calls (run exec command2 env2 w).2 = popen_calls w ++ [a] →
  popen_calls (run exec command2 env2 (run exec command1 env1 w).2).2
  = popen_calls (run exec command1 env1 w).2 ++ [a].
Proof.
  intros Hwf Hcalls.
  destruct (resolve command2 (self_command (task w))) as [c2|] eqn:Hc2; cycle 1.
  { rewrite (run_missing_command exec w command2 env2 Hc2) in Hcalls.
    cbn [snd] in Hcalls. apply (f_equal length) in Hcalls.
    rewrite length_app in Hcalls. cbn in Hcalls. lia. }
  destruct (run_spawns exec w command2 env2 c2 Hc2)
    as (h2 & E2 & o2 & s2 & _ & HE2 & _ & Hrun2).
  cbn zeta in Hrun2. rewrite Hrun2 in Hcalls. cbn [snd popen_calls] in Hcalls.
  apply app_inv_head in Hcalls. injection Hcalls as <-.
  destruct (resolve command1 (self_command (task w))) as [c1|] eqn:Hc1; cycle 1.
  { rewrite (run_missing_command exec w command1 env1 Hc1). cbn [snd].
    by rewrite Hrun2. }
  destruct (run_spawns exec w command1 env1 c1 Hc1)
    as (h1 & E1 & o1 & s1 & Hframe & _ & _ & Hrun1).
  cbn zeta in Hrun1. rewrite Hrun1. cbn [snd].
  match goal with |- context [run exec command2 env2 ?w1] =>
    destruct (run_spawns exec w1 command2 env2 c2 Hc2)
      as (h3 & E3 & o3 & s3 & _ & HE3 & _ & Hrun3)
  end.
  cbn zeta in Hrun3. rewrite Hrun3. cbn [snd popen_calls task]. do 4 f_equal.
  cbn [task heap os_environ] in HE3.
  pose proof (resolve_live w env2) as Hres.
  destruct (Hwf) as [[I HI] _].
  destruct (HE2 I HI) as [HS2 HN2].
  destruct (HE3 I) as [HS3 HN3].
  { rewrite Hframe by eauto. done. }
  destruct (resolve env2 (self_env (task w))) as [l|].
  - destruct (Hres l Hwf eq_refl) as [O HO].
    rewrite (HS2 l O eq_refl HO). apply (HS3 l O eq_refl).
    rewrite Hframe by eauto. done.
  - by rewrite HN2, HN3.
Qed.

(** X4: an empty mapping of overrides is treated as no overrides at all:
    the body of [run] does with it exactly what it does with [None]. *)
Theorem run_body_empty_overrides (w : World OS) c l :
  heap w !! l = Some ∅ →
  run_body exec (Some c) (Some l) w = run_body exec (Some c) None w.
Proof.
  intros Hl. unfold run_body, bind at 1 2 3, get_self, dict_copy.
  cbn beta iota. unfold bind at 2, get_self. cbn beta iota.
  unfold bind at 1 3, or_empty, alloc. cbn [heap set_heap].
  rewrite decide_True; [done|].
  rewrite deref_insert_ne by (apply not_eq_sym, fresh_not_live; eauto).
  by apply deref_Some.
Qed.

(** X5: the message of a [FAIL] raised by [run] consists of printable ASCII
    characters only, whatever bytes the process wrote. *)
Theorem run_fail_message_printable (w : World OS) command env m :
  (run exec command env w).1 = Raise (FAIL m) →
  Printable.all_printable m = true.
Proof.
  destruct (resolve command (self_command (task w))) as [c|] eqn:Hc.
  - destruct (run_spawns exec w command env c Hc)
      as (h' & E & o & s & _ & _ & _ & Hrun).
    cbn zeta in Hrun. rewrite Hrun. cbn [fst].
    destruct o as [rc out|err]; cbn; [|discriminate].
    destruct (rc =? 0); [discriminate|]. intros [= <-].
    apply PrintableFacts.fail_message_printable.
  - rewrite (run_missing_command exec w command env Hc). discriminate.
Qed.

(** X6: for a given working directory the composed command determines the
    command; but the directory is inserted as it is, so a directory holding
    [ && ] cannot be told from a command chained after a shorter one. *)
Theorem cd_prefix_boundary :
  (∀ d c c', cd_prefix d c = cd_prefix d c' → c = c')
  ∧ (∀ d x c,
       cd_prefix d (x +:+ " && " +:+ c) = cd_prefix (d +:+ " && " +:+ x) c).
Proof.
  split.
  - intros d c c' Heq. unfold cd_prefix in Heq.
    by apply (inj (String.app _)) in Heq.
  - intros d x c. rewrite !cd_prefix_flat. by rewrite !append_assoc.
Qed.

End Further.

(** ** The claims on the small operating system *)

Import Example.

(** [ShellTask().run(command="exit 3")] fails with the status and the output
    in its message. *)
Lemma run_exit_code_classification_witness :
  (run toy_exec (Some "exit 3") None (toy_world plain_task)).1
  = Raise (FAIL "Command failed with exit code 3: b'oops\n'").
Proof.
  refine (proj1 (proj2 (run_exit_code_classification toy_exec
    (toy_world plain_task) (Some "exit 3") None "exit 3"
    (mkPopenArgs ["bash"; "-c"; "exit 3"] None (Some PIPE) (Some STDOUT)
       (Some inherited))
    3 [x6f; x6f; x70; x73; x0a] eq_refl _ _)) _).
  - vm_compute. reflexivity.
  - reflexivity.
  - discriminate.
Defined.

(** [ShellTask().run()] raises [TypeError] and changes nothing. *)
Lemma run_missing_command_is_type_error_witness :
  run toy_exec None None (toy_world plain_task)
  = (Raise (TypeError "run() missing required argument: 'command'"),
     toy_world plain_task).
Proof.
  exact (proj1 (run_missing_command_is_type_error toy_exec
                  (toy_world plain_task) None eq_refl)).
Defined.

(** [ShellTask(cd="/tmp", ...).run(command="pwd")] hands [cd /tmp && pwd] to
    the shell. *)
Lemma run_command_composition_witness :
  ∃ a, popen_calls (run toy_exec (Some "pwd") None (toy_world tmp_task)).2 = [a]
       ∧ popen_args a = ["bash"; "-c"; "cd /tmp && pwd"].
Proof.
  destruct (run_command_composition toy_exec (toy_world tmp_task)
              (Some "pwd") None "pwd" eq_refl) as (a & sh & Hcalls & _ & Hcd).
  exists a. split; [exact Hcalls|].
  specialize (Hcd "/tmp" eq_refl).
  vm_compute in Hcalls. injection Hcalls as <-. reflexivity.
Defined.

(** With the overrides [FOO=bar, HOME=/srv] the child sees [FOO] and the new
    [HOME], and still the inherited [PATH]. *)
Lemma run_environment_composition_witness :
  ∃ a E, popen_calls (run toy_exec (Some "env") (Some 2%positive)
                        (toy_world plain_task)).2 = [a]
         ∧ popen_env a = Some E
         ∧ E !! "FOO" = Some "bar" ∧ E !! "HOME" = Some "/srv"
         ∧ E !! "PATH" = Some "/usr/bin".
Proof.
  destruct (run_environment_composition toy_exec (toy_world plain_task)
              (Some "env") (Some 2%positive) "env" inherited eq_refl eq_refl)
    as (a & E & Hcalls & HE & Hover & _).
  destruct (Hover 2%positive extra eq_refl eq_refl) as (Hset & Hkeep & _).
  exists a, E. split_and!; [exact Hcalls|exact HE|..].
  - apply Hset. reflexivity.
  - apply Hset. reflexivity.
  - rewrite Hkeep; reflexivity.
Defined.

(** The request of [ShellTask().run(command="echo hello")]. *)
Lemma run_spawn_request_witness :
  ∃ a, popen_calls (run toy_exec (Some "echo hello") None (toy_world plain_task)).2
       = [a]
       ∧ a = mkPopenArgs ["bash"; "-c"; "echo hello"] None (Some PIPE)
               (Some STDOUT) (Some inherited).
Proof.
  destruct (run_spawn_request toy_exec (toy_world plain_task)
              (Some "echo hello") None "echo hello" eq_refl)
    as (a & E & Hcalls & Ha & HE & _).
  destruct (HE inherited eq_refl) as [_ HNone].
  exists a. split; [exact Hcalls|]. rewrite Ha, (HNone eq_refl). reflexivity.
Defined.

(** The same request does not keep the parent's standard input from the
    child, as C5 has it. *)
Lemma run_spawn_inherits_stdin :
  ¬ ∃ a, last (popen_calls (run toy_exec (Some "echo hello") None
                              (toy_world plain_task)).2) = Some a
         ∧ popen_args a = ["bash"; "-c"; "echo hello"]
         ∧ child_stream (popen_stdin a) ≠ InheritedFromParent.
Proof.
  intros (a & Ha & _ & Hstdin). vm_compute in Ha.
  injection Ha as <-. by apply Hstdin.
Qed.

(** [ShellTask(shell="zsh").run(command="ls")]: there is no [zsh], and the
    caller gets the [OSError]. *)
Lemma run_spawn_failure_surfaces_witness :
  (run toy_exec (Some "ls") None (toy_world zsh_task)).1
  = Raise (OSError (mkOSError 2 "No such file or directory")).
Proof.
  refine (proj1 (run_spawn_failure_surfaces toy_exec (toy_world zsh_task)
    (Some "ls") None "ls"
    (mkPopenArgs ["zsh"; "-c"; "ls"] None (Some PIPE) (Some STDOUT)
       (Some inherited))
    (mkOSError 2 "No such file or directory") eq_refl _ _)).
  - vm_compute. reflexivity.
  - reflexivity.
Defined.

(** Running [ShellTask().run(command="exit 3", env=extra)] twice fails twice
    in the same way. *)
Lemma run_repeatable_witness :
  (run toy_exec (Some "exit 3") (Some 2%positive)
     (run toy_exec (Some "exit 3") (Some 2%positive) (toy_world plain_task)).2).1
  = (run toy_exec (Some "exit 3") (Some 2%positive) (toy_world plain_task)).1.
Proof.
  apply (run_repeatable toy_exec (toy_world plain_task) (Some "exit 3")
           (Some 2%positive)).
  - split_and!.
    + eexists. reflexivity.
    + intros l [= <-]. eexists. reflexivity.
    + intros l [=].
  - intros a Ha. vm_compute in Ha. injection Ha as <-. reflexivity.
Defined.

(** [ShellTask().run(command="")] requests a process. *)
Lemma run_empty_command_spawns_witness :
  ∃ a sh s,
    popen_calls (run toy_exec (Some EmptyString) None (toy_world plain_task)).2
    = popen_calls (toy_world plain_task) ++ [a]
    ∧ popen_args a = [sh; "-c"; s].
Proof.
  exact (proj2 (run_empty_command_spawns toy_exec (toy_world plain_task)
                  (Some EmptyString) None) eq_refl).
Defined.

(** ** The further properties on the small operating system *)

(** [ShellTask().run(command="ls")] returns [hello]: [bash -c ls] was
    requested and exited with status 0. *)
Lemma run_return_sound_witness :
  ∃ c a s,
    resolve (Some "ls") (self_command (task (toy_world plain_task))) = Some c
    ∧ popen_calls (run toy_exec (Some "ls") None (toy_world plain_task)).2
      = popen_calls (toy_world plain_task) ++ [a]
    ∧ toy_exec a (os_state (toy_world plain_task))
      = (Exited 0 [x68; x65; x6c; x6c; x6f; x0a], s).
Proof.
  apply (run_return_sound toy_exec (toy_world plain_task) (Some "ls") None).
  vm_compute. reflexivity.
Defined.


(** [run(command="ls")] asks for [bash -c ls] with the inherited environment,
    also after [run(command="exit 3", env=extra)]. *)
Lemma run_requests_independent_witness :
  popen_calls
    (run toy_exec (Some "ls") None
       (run toy_exec (Some "exit 3") (Some 2%positive) (toy_world plain_task)).2).2
  = popen_calls
      (run toy_exec (Some "exit 3") (Some 2%positive) (toy_world plain_task)).2
    ++ [mkPopenArgs ["bash"; "-c"; "ls"] None (Some PIPE) (Some STDOUT)
          (Some inherited)].
Proof.
  apply (run_requests_independent toy_exec (toy_world plain_task)
           (Some "exit 3") (Some 2%positive) (Some "ls") None).
  - split_and!.
    + eexists. reflexivity.
    + intros l [=].
    + intros l [=].
  - vm_compute. reflexivity.
Defined.

(** With an empty mapping as object 3, [env={}] is as good as no [env]. *)
Lemma run_body_empty_overrides_witness :
  run_body toy_exec (Some "ls") (Some 3%positive)
    (mkWorld plain_task (<[3%positive := ∅]> toy_heap) 1%positive [] [] 0%nat)
  = run_body toy_exec (Some "ls") None
      (mkWorld plain_task (<[3%positive := ∅]> toy_heap) 1%positive [] [] 0%nat).
Proof.
  apply (run_body_empty_overrides toy_exec). reflexivity.
Defined.

(** The message of the failed [exit 3] is printable. *)
Lemma run_fail_message_printable_witness :
  Printable.all_printable (fail_message 3 [x6f; x6f; x70; x73; x0a]) = true.
Proof.
  apply (run_fail_message_printable toy_exec (toy_world plain_task)
           (Some "exit 3") None).
  vm_compute. reflexivity.
Defined.

(** [cd /srv && make && ls]: the command [make && ls] in [/srv], or the
    command [ls] in the directory [/srv && make]. *)
Lemma cd_prefix_boundary_witness :
  cd_prefix "/srv" "make && ls" = cd_prefix "/srv && make" "ls".
Proof. exact (proj2 cd_prefix_boundary "/srv" "make" "ls"). Defined.
